(** * Streaming anomaly detector ([Data_Detection.py])

    A shallow embedding of [anomaly_detection], the exponentially weighted
    moving average filter with a per-point deviation test, of the two
    renderings and of the signal source, together with properties of them.

    Samples, [alpha] and [z_value] are numbers on which the detector only
    multiplies, adds, subtracts, takes an absolute value and compares.  The
    embedding is written once over that interface ([Scalar]) and is used at
    three instances: the binary64 numbers the program computes with, as
    specified by the standard library ([spec_float], with rounding,
    infinities and NaN); the real numbers [R], in which the specification
    words its properties; and the rationals [Q], on which the real
    arithmetic evaluates.  What is proved for every [Scalar] holds of all
    three. *)

From Stdlib Require Import List Arith Lia Bool Sorted.
From Stdlib Require Import QArith Qabs Qreals.
From Stdlib Require Import Reals Lra.
From Stdlib Require Import SpecFloat.
Import ListNotations.

Set Implicit Arguments.

(** ** Numbers *)

Declare Scope scalar_scope.
Delimit Scope scalar_scope with sc.

(** The arithmetic the function uses: [*], [+], [-], the literal [1],
    [np.abs] and [>]. *)
Class Scalar (A : Type) : Type := {
  mul : A -> A -> A;
  add : A -> A -> A;
  sub : A -> A -> A;
  one : A;
  np_abs : A -> A;
  gtb : A -> A -> bool
}.

Infix "*" := mul : scalar_scope.
Infix "+" := add : scalar_scope.
Infix "-" := sub : scalar_scope.
Infix ">?" := gtb (at level 70, no associativity) : scalar_scope.

Definition Rgtb (x y : R) : bool := if Rgt_dec x y then true else false.

#[export] Instance Scalar_R : Scalar R := {
  mul := Rmult;
  add := Rplus;
  sub := Rminus;
  one := 1%R;
  np_abs := Rabs;
  gtb := Rgtb
}.

Definition Qgtb (x y : Q) : bool := negb (Qle_bool x y).

#[export] Instance Scalar_Q : Scalar Q := {
  mul := Qmult;
  add := Qplus;
  sub := Qminus;
  one := 1%Q;
  np_abs := Qabs;
  gtb := Qgtb
}.

(** Binary64: 53 bits of mantissa, infinities at exponent 1024. *)
Definition b64_mul : spec_float -> spec_float -> spec_float :=
  SFmul 53 1024.
Definition b64_add : spec_float -> spec_float -> spec_float :=
  SFadd 53 1024.
Definition b64_sub : spec_float -> spec_float -> spec_float :=
  SFsub 53 1024.

(** [x > y]; false as soon as one of the two is NaN. *)
Definition b64_gtb (x y : spec_float) : bool := SFltb y x.

(** The binary64 number nearest to the integer [n]. *)
Definition b64_of_Z (n : Z) : spec_float :=
  binary_normalize 53 1024 n 0 false.

Definition is_nan (x : spec_float) : bool :=
  match x with
  | S754_nan => true
  | _ => false
  end.

#[export] Instance Scalar_binary64 : Scalar spec_float := {
  mul := b64_mul;
  add := b64_add;
  sub := b64_sub;
  one := b64_of_Z 1;
  np_abs := SFabs;
  gtb := b64_gtb
}.

(** ** Exceptions

    [IndexError] is what indexing past the end raises.  [InvalidInput] is
    the kind of error the specification names for an unusable signal; no
    statement of the source raises it. *)

Inductive exception : Type :=
| IndexError
| InvalidInput.

Inductive result (T : Type) : Type :=
| Ok (v : T)
| Raise (e : exception).

Arguments Ok {T} v.
Arguments Raise {T} e.

Definition bind {T U : Type} (r : result T) (k : T -> result U) : result U :=
  match r with
  | Ok v => k v
  | Raise e => Raise e
  end.

Notation "x <- r ;; k" := (bind r (fun x => k))
  (at level 61, r at next level, right associativity).

(** ** Sequences *)

(** [l[i]] for [0 <= i]: an index past the end raises [IndexError]. *)
Definition getitem {T : Type} (l : list T) (i : nat) : result T :=
  match nth_error l i with
  | Some x => Ok x
  | None => Raise IndexError
  end.

(** [l[-1]]: the last element; [IndexError] on the empty list. *)
Definition getitem_last {T : Type} (l : list T) : result T :=
  match l with
  | [] => Raise IndexError
  | x :: l' => Ok (last l' x)
  end.

(** [range(start, stop)]. *)
Definition range (start stop : nat) : list nat := seq start (stop - start).

(** ** The detector *)

Section Detector.

Context {A : Type} `{Scalar A}.
Local Open Scope scalar_scope.

Variable data : list A.
Variables alpha z_value : A.

(** The two lists the loop appends to. *)
Definition locals : Type := (list A * list (nat * A))%type.

(** One iteration of [for i in range(1, len(data))]. *)
Definition loop_body (i : nat) (st : locals) : result locals :=
  let '(data_stream, anomalies) := st in
  x <- getitem data i ;;
  prev <- getitem_last data_stream ;;
  let moving_average := alpha * x + (one - alpha) * prev in
  let data_stream := data_stream ++ [moving_average] in
  let deviation := x - moving_average in
  if np_abs deviation >? z_value
  then Ok (data_stream, anomalies ++ [(i, x)])
  else Ok (data_stream, anomalies).

Fixpoint for_loop (indices : list nat) (st : locals) : result locals :=
  match indices with
  | [] => Ok st
  | i :: indices' => st' <- loop_body i st ;; for_loop indices' st'
  end.

Definition anomaly_detection : result locals :=
  d0 <- getitem data 0 ;;
  for_loop (range 1 (length data)) ([d0], []).

(** *** Control flow of one call

    The call as a transition system: [Start] is the entry of the
    function, [Loop i st] the head of the [for] loop with [i] the next
    value of the loop variable, [Done r] the call's outcome (a returned
    pair or a raised exception). *)

Inductive config : Type :=
| Start
| Loop (i : nat) (st : locals)
| Done (r : result locals).

Inductive step : config -> config -> Prop :=
| step_seed d0 :
    getitem data 0 = Ok d0 ->
    step Start (Loop 1 ([d0], []))
| step_seed_raise e :
    getitem data 0 = Raise e ->
    step Start (Done (Raise e))
| step_iter i st st' :
    (i < length data)%nat ->
    loop_body i st = Ok st' ->
    step (Loop i st) (Loop (S i) st')
| step_iter_raise i st e :
    (i < length data)%nat ->
    loop_body i st = Raise e ->
    step (Loop i st) (Done (Raise e))
| step_exit i st :
    (length data <= i)%nat ->
    step (Loop i st) (Done (Ok st)).

Inductive steps : config -> config -> Prop :=
| steps_refl c : steps c c
| steps_cons c1 c2 c3 : step c1 c2 -> steps c2 c3 -> steps c1 c3.

(** A call runs to the outcome [r]. *)
Definition runs_to (r : result locals) : Prop := steps Start (Done r).

(** *** The recurrence, by recursion on the samples still to read

    [ewma_from prev xs] lists the smoothed values of the samples [xs] when
    the last smoothed value so far is [prev]; [flagged_from i prev xs]
    lists the samples of [xs] that fail the deviation test, [i] being the
    index of the first of them. *)

Fixpoint ewma_from (prev : A) (xs : list A) : list A :=
  match xs with
  | [] => []
  | x :: xs' =>
      let m := alpha * x + (one - alpha) * prev in
      m :: ewma_from m xs'
  end.

Fixpoint flagged_from (i : nat) (prev : A) (xs : list A) : list (nat * A) :=
  match xs with
  | [] => []
  | x :: xs' =>
      let m := alpha * x + (one - alpha) * prev in
      (if np_abs (x - m) >? z_value then [(i, x)] else [])
        ++ flagged_from (S i) m xs'
  end.

End Detector.

Arguments anomaly_detection {A _} data alpha z_value.
Arguments Start {A}.

(** The indices of a list of anomalies, in the order of the list. *)
Definition indices {A : Type} (anomalies : list (nat * A)) : list nat :=
  map fst anomalies.

(** Renaming the numbers of an outcome along [f]. *)
Definition locals_map {A B : Type} (f : A -> B) (st : @locals A)
  : @locals B :=
  (map f (fst st), map (fun a => (fst a, f (snd a))) (snd st)).

Definition result_map {T U : Type} (f : T -> U) (r : result T)
  : result U :=
  match r with
  | Ok v => Ok (f v)
  | Raise e => Raise e
  end.

(** ** Rendering

    [plot] and [realtime_visualization] hand the signal, the trend and the
    anomalies to the plotting library.  What the library is given is
    modelled, not what it draws: an artist is the arguments of the last call
    that set its data, as they were at that call. *)

Section Rendering.

Context {A : Type}.

Variable data : list A.
Variable moving_average : list A.
Variable anomalies : list (nat * A).

(** [zip] of the unpacked [points], bound to two names; [points] is not
    empty where the source does this. *)
Definition zip_star (points : list (nat * A)) : list nat * list A :=
  List.split points.

(** [np.c_[xs, ys]]: the rows [(x, y)]. *)
Definition np_c_ (xs : list nat) (ys : list A) : list (nat * A) :=
  combine xs ys.

(** *** [plot] *)

(** The calls [plot] makes on its axes: the two [ax.plot] calls in order,
    the [ax.scatter] call if it is made, and the two limits. *)
Record figure : Type := {
  plotted : list (list A);
  scattered : option (list nat * list A);
  fig_xlim : nat * nat;
  fig_ylim : Z * Z
}.

Definition plot : figure :=
  {| plotted := [data; moving_average];
     scattered :=
       match anomalies with
       | [] => None
       | _ :: _ =>
           let '(x_anomalies, y_anomalies) := zip_star anomalies in
           Some (x_anomalies, y_anomalies)
       end;
     fig_xlim := (0%nat, length data);
     fig_ylim := ((-120)%Z, 120%Z) |}.

(** *** [realtime_visualization] *)

(** The variables [init] and [update] close over: the two growing lists,
    the three artists and the limits of the axes. *)
Record view : Type := {
  xdata : list nat;
  ydata : list A;
  data_line : list nat * list A;
  moving_average_line : list nat * list A;
  anomaly_scatter : list (nat * A);
  xlim : option (nat * nat);
  ylim : option (Z * Z)
}.

(** The state after [plt.plot([], [])] twice and [ax.scatter([], [])]. *)
Definition initial_view : view :=
  {| xdata := [];
     ydata := [];
     data_line := ([], []);
     moving_average_line := ([], []);
     anomaly_scatter := [];
     xlim := None;
     ylim := None |}.

Definition init (st : view) : view :=
  {| xdata := xdata st;
     ydata := ydata st;
     data_line := data_line st;
     moving_average_line := moving_average_line st;
     anomaly_scatter := anomaly_scatter st;
     xlim := Some (0%nat, length data);
     ylim := Some ((-120)%Z, 120%Z) |}.

(** [update(frame)] for a frame number [frame >= 0]; the state it leaves is
    returned also when it raises. *)
Definition update (frame : nat) (st : view) : view * result unit :=
  let xdata' := xdata st ++ [frame] in
  match getitem data frame with
  | Raise e =>
      ({| xdata := xdata';
          ydata := ydata st;
          data_line := data_line st;
          moving_average_line := moving_average_line st;
          anomaly_scatter := anomaly_scatter st;
          xlim := xlim st;
          ylim := ylim st |}, Raise e)
  | Ok y =>
      let ydata' := ydata st ++ [y] in
      let data_line' :=
        if (length xdata' =? length ydata')%nat
        then (xdata', ydata')
        else data_line st in
      let moving_average_data := firstn (frame + 1) moving_average in
      let moving_average_line' :=
        if (length xdata' =? length moving_average_data)%nat
        then (xdata', moving_average_data)
        else moving_average_line st in
      let anomaly_points :=
        filter (fun p => (fst p <=? frame)%nat) anomalies in
      let anomaly_scatter' :=
        match anomaly_points with
        | [] => anomaly_scatter st
        | _ :: _ =>
            let '(x_anom, y_anom) := zip_star anomaly_points in
            np_c_ x_anom y_anom
        end in
      ({| xdata := xdata';
          ydata := ydata';
          data_line := data_line';
          moving_average_line := moving_average_line';
          anomaly_scatter := anomaly_scatter';
          xlim := xlim st;
          ylim := ylim st |}, Ok tt)
  end.

(** [update] called on the frames of a list in turn, up to the first call
    that raises. *)
Fixpoint play (frames : list nat) (st : view) : view * result unit :=
  match frames with
  | [] => (st, Ok tt)
  | frame :: frames' =>
      match update frame st with
      | (st', Ok _) => play frames' st'
      | (st', Raise e) => (st', Raise e)
      end
  end.

(** The state in which the first [k] frames leave the animation, as the
    facts below establish. *)
Definition frame_view (k : nat) : view :=
  {| xdata := seq 0 k;
     ydata := firstn k data;
     data_line := (seq 0 k, firstn k data);
     moving_average_line :=
       (seq 0 (Nat.min k (length moving_average)),
        firstn k moving_average);
     anomaly_scatter := filter (fun p => (fst p <? k)%nat) anomalies;
     xlim := Some (0%nat, length data);
     ylim := Some ((-120)%Z, 120%Z) |}.

(** One pass of the animation [FuncAnimation(fig, update,
    frames=len(data), init_func=init)]: [init], then [update] on
    [0 .. len(data) - 1]. *)
Definition realtime_visualization : view * result unit :=
  play (range 0 (length data)) (init initial_view).

End Rendering.

(** ** The signal source and the program

    [data_generator] reads two global random generators; their joint state
    is a value of a type [G] and each draw returns the state it leaves.  The
    draws themselves belong to the libraries and are parameters. *)

Definition Rltb (x y : R) : bool := if Rlt_dec x y then true else false.

(** [l[i] = v] on an array: an index past the end raises [IndexError]. *)
Definition setitem {T : Type} (l : list T) (i : nat) (v : T)
  : result (list T) :=
  if (i <? length l)%nat
  then Ok (firstn i l ++ v :: skipn (S i) l)
  else Raise IndexError.

(** [np.arange(n)]. *)
Definition np_arange (n : nat) : list nat := seq 0 n.

(** [a + b] on two arrays of one length, element by element. *)
Definition array_add (a b : list R) : list R :=
  map (fun p => (fst p + snd p)%R) (combine a b).

Section Generator.

Local Open Scope R_scope.

Variable G : Type.

(** One sample of [np.random.normal(loc, scale)]. *)
Variable normal_sample : R -> R -> G -> R * G.
(** [random.random()]. *)
Variable random_random : G -> R * G.
(** [np.random.choice(values)]. *)
Variable np_random_choice : list R -> G -> R * G.
(** [random.uniform(a, b)]. *)
Variable random_uniform : R -> R -> G -> R * G.

(** [np.random.normal(loc, scale, size)]: [size] samples. *)
Fixpoint np_random_normal (loc scale : R) (size : nat) (g : G)
  : list R * G :=
  match size with
  | O => ([], g)
  | S size' =>
      let '(x, g) := normal_sample loc scale g in
      let '(xs, g) := np_random_normal loc scale size' g in
      (x :: xs, g)
  end.

(** [10 * np.sin(2 * np.pi * time / 100)]. *)
Definition sine_wave (time : list nat) : list R :=
  map (fun t => 10 * sin (2 * PI * INR t / 100)) time.

(** One iteration of [for i in range(num_points)]. *)
Definition spike_body (i : nat) (st : list R * G) : result (list R * G) :=
  let '(data_stream, g) := st in
  let '(u, g) := random_random g in
  if Rltb u (1 / 100)
  then
    old <- getitem data_stream i ;;
    let '(sign, g) := np_random_choice [-1; 1] g in
    let '(magnitude, g) := random_uniform 50 100 g in
    data_stream <- setitem data_stream i (old + sign * magnitude) ;;
    Ok (data_stream, g)
  else Ok (data_stream, g).

(** What one iteration may do to a sample: leave it, or add to it a drawn
    sign times a drawn magnitude. *)
Definition spiked (old new : R) : Prop :=
  new = old \/
  exists g1 g2,
    new = old + fst (np_random_choice [-1; 1] g1)
                * fst (random_uniform 50 100 g2).

Fixpoint spike_loop (indices : list nat) (st : list R * G)
  : result (list R * G) :=
  match indices with
  | [] => Ok st
  | i :: indices' => st' <- spike_body i st ;; spike_loop indices' st'
  end.

Definition data_generator (num_points : nat) (g : G)
  : result (list R * G) :=
  let time := np_arange num_points in
  let sine_wave_data := sine_wave time in
  let '(random_noise, g) := np_random_normal 0 1 num_points g in
  let data_stream := array_add sine_wave_data random_noise in
  spike_loop (range 0 num_points) (data_stream, g).

(** The program run as a script: generate 200 points, detect with
    [alpha = 0.1] and [z_value = 8], animate.  The generated signal and the
    state the animation ends in are returned for the facts below. *)
Definition main (g : G) : result (list R * view (A := R)) :=
  generated <- data_generator 200 g ;;
  let data := fst generated in
  detected <- anomaly_detection data (1 / 10) 8 ;;
  let '(moving_average, anomalies) := detected in
  match realtime_visualization data moving_average anomalies with
  | (st, Ok _) => Ok (data, st)
  | (_, Raise e) => Raise e
  end.

End Generator.

(** ** Facts that hold for every kind of number *)

Section DetectorFacts.

Context {A : Type} `{Scalar A}.
Local Open Scope scalar_scope.

Variables alpha z_value : A.

Lemma getitem_last_snoc (l : list A) (m : A) :
  getitem_last (l ++ [m]) = Ok m.
Proof.
  destruct l as [|a l]; simpl; [reflexivity|].
  f_equal. apply last_last.
Qed.

Lemma getitem_middle (pre : list A) (x : A) (xs : list A) :
  getitem (pre ++ x :: xs) (length pre) = Ok x.
Proof.
  unfold getitem.
  rewrite nth_error_app2 by lia.
  rewrite Nat.sub_diag. reflexivity.
Qed.

(** The loop, started at index [length pre] with [prev] the last trend
    value, appends the recurrence's values and flags. *)
Lemma for_loop_from (xs : list A) :
  forall (pre ds : list A) (prev : A) (an : list (nat * A)),
    getitem_last ds = Ok prev ->
    for_loop (pre ++ xs) alpha z_value
             (seq (length pre) (length xs)) (ds, an)
    = Ok (ds ++ ewma_from alpha prev xs,
          an ++ flagged_from alpha z_value (length pre) prev xs).
Proof.
  induction xs as [|x xs IH]; intros pre ds prev an Hlast.
  - simpl. rewrite !app_nil_r. reflexivity.
  - simpl seq. simpl for_loop. unfold loop_body.
    rewrite getitem_middle, Hlast. simpl bind.
    set (m := alpha * x + (one - alpha) * prev).
    assert (Hshift : pre ++ x :: xs = (pre ++ [x]) ++ xs)
      by (rewrite <- app_assoc; reflexivity).
    assert (Hlen : S (length pre) = length (pre ++ [x]))
      by (rewrite length_app; simpl; lia).
    destruct (np_abs (x - m) >? z_value) eqn:Htest; simpl bind;
      rewrite Hshift, Hlen, (IH _ _ m) by apply getitem_last_snoc;
      simpl; fold m; rewrite Htest, <- Hlen, <- !app_assoc; reflexivity.
Qed.

(** The function on a non-empty input, in closed form. *)
Lemma anomaly_detection_cons (d0 : A) (rest : list A) :
  anomaly_detection (d0 :: rest) alpha z_value
  = Ok (d0 :: ewma_from alpha d0 rest,
        flagged_from alpha z_value 1 d0 rest).
Proof.
  unfold anomaly_detection, range.
  replace (length (d0 :: rest) - 1)%nat with (length rest)
    by (simpl; lia).
  cbn [getitem nth_error bind].
  apply for_loop_from with (pre := [d0]) (ds := [d0]). reflexivity.
Qed.

Lemma anomaly_detection_nil :
  anomaly_detection (@nil A) alpha z_value = Raise IndexError.
Proof. reflexivity. Qed.

(** *** The trend *)

Lemma length_ewma_from (xs : list A) :
  forall prev, length (ewma_from alpha prev xs) = length xs.
Proof.
  induction xs as [|x xs IH]; intro prev; simpl;
    [reflexivity | now rewrite IH].
Qed.

(** Position [j] of the smoothed values is computed from sample [j] and
    from the value just before it. *)
Lemma nth_error_ewma_from (xs : list A) :
  forall (prev : A) (j : nat) (x : A),
    nth_error xs j = Some x ->
    exists p,
      nth_error (prev :: ewma_from alpha prev xs) j = Some p /\
      nth_error (ewma_from alpha prev xs) j
      = Some (alpha * x + (one - alpha) * p).
Proof.
  induction xs as [|y xs IH]; intros prev j x Hx.
  - destruct j; discriminate.
  - destruct j as [|j]; simpl in Hx.
    + injection Hx as ->. exists prev. split; reflexivity.
    + destruct (IH (alpha * y + (one - alpha) * prev) j x Hx)
        as (p & Hp & Hm).
      exists p. split; assumption.
Qed.

(** *** The anomalies *)

(** What the loop flags: sample [j] of [xs], whose index is [k + j], when
    it fails the test against its own smoothed value. *)
Lemma In_flagged_from (xs : list A) :
  forall (k : nat) (prev : A) (i : nat) (x : A),
    In (i, x) (flagged_from alpha z_value k prev xs) <->
    exists j t,
      i = (k + j)%nat /\
      nth_error xs j = Some x /\
      nth_error (ewma_from alpha prev xs) j = Some t /\
      (np_abs (x - t) >? z_value) = true.
Proof.
  induction xs as [|y xs IH]; intros k prev i x.
  - simpl. split; [intros [] | intros (j & t & _ & Hj & _)].
    destruct j; discriminate.
  - simpl. set (m := alpha * y + (one - alpha) * prev).
    rewrite in_app_iff, IH. split.
    + intros [Hhead | (j & t & -> & Hx & Ht & Htest)].
      * destruct (np_abs (y - m) >? z_value) eqn:Htest;
          [|contradiction].
        destruct Hhead as [Heq | []]. injection Heq as <- <-.
        exists 0%nat, m. rewrite Nat.add_0_r. repeat split; assumption.
      * exists (S j), t. repeat split; try assumption. lia.
    + intros (j & t & -> & Hx & Ht & Htest).
      destruct j as [|j]; simpl in Hx, Ht.
      * injection Hx as ->. injection Ht as <-. left.
        rewrite Htest, Nat.add_0_r. left. reflexivity.
      * right. exists j, t. repeat split; try assumption. lia.
Qed.

(** Flagged indices lie between the first index and the last. *)
Lemma flagged_from_bounds (xs : list A) :
  forall (k : nat) (prev : A),
    Forall (fun i => (k <= i < k + length xs)%nat)
           (indices (flagged_from alpha z_value k prev xs)).
Proof.
  induction xs as [|y xs IH]; intros k prev; simpl.
  - constructor.
  - unfold indices. rewrite map_app. apply Forall_app. split.
    + destruct (_ >? _); simpl; constructor; [lia | constructor].
    + eapply Forall_impl; [|apply IH]. simpl. intros i Hi. lia.
Qed.

(** Flagged indices come in strictly increasing order. *)
Lemma flagged_from_sorted (xs : list A) :
  forall (k : nat) (prev : A),
    StronglySorted lt (indices (flagged_from alpha z_value k prev xs)).
Proof.
  induction xs as [|y xs IH]; intros k prev; simpl.
  - constructor.
  - set (m := alpha * y + (one - alpha) * prev).
    destruct (_ >? _); simpl; [|apply IH].
    constructor; [apply IH|].
    eapply Forall_impl; [|apply flagged_from_bounds].
    simpl. intros i Hi. lia.
Qed.

End DetectorFacts.

(** ** The call as a transition system *)

Section ControlFlow.

Context {A : Type} `{Scalar A}.

Variable data : list A.
Variables alpha z_value : A.

Local Abbreviation step := (step data alpha z_value).
Local Abbreviation steps := (steps data alpha z_value).

(** The loop head runs the remaining iterations and then leaves. *)
Lemma steps_for_loop (n : nat) :
  forall (i : nat) (st : locals),
    (i + n)%nat = length data ->
    steps (Loop i st) (Done (for_loop data alpha z_value (seq i n) st)).
Proof.
  induction n as [|n IH]; intros i st Hlen; simpl.
  - eapply steps_cons; [|apply steps_refl].
    apply step_exit. lia.
  - destruct (loop_body data alpha z_value i st) as [st'|e] eqn:Hbody;
      simpl.
    + eapply steps_cons; [apply step_iter; [lia | eassumption]|].
      apply IH. lia.
    + eapply steps_cons; [|apply steps_refl].
      apply step_iter_raise; [lia | assumption].
Qed.

(** The function's value is the outcome the call runs to. *)
Lemma runs_to_anomaly_detection :
  runs_to data alpha z_value (anomaly_detection data alpha z_value).
Proof.
  unfold runs_to, anomaly_detection.
  destruct (getitem data 0) as [d0|e] eqn:Hseed; simpl.
  - eapply steps_cons; [apply step_seed; eassumption|].
    apply steps_for_loop. unfold getitem in Hseed.
    destruct data; [discriminate | simpl; lia].
  - eapply steps_cons; [|apply steps_refl].
    apply step_seed_raise. assumption.
Qed.

End ControlFlow.

(** ** Changing the kind of number

    A map [f] between two kinds of number that commutes with the six
    operations commutes with the detector. *)

Section Transfer.

Context {A B : Type} `{Scalar A} `{Scalar B}.
Local Open Scope scalar_scope.

Variable f : A -> B.

Hypothesis f_mul : forall x y, f (x * y) = f x * f y.
Hypothesis f_add : forall x y, f (x + y) = f x + f y.
Hypothesis f_sub : forall x y, f (x - y) = f x - f y.
Hypothesis f_one : f one = one.
Hypothesis f_abs : forall x, f (np_abs x) = np_abs (f x).
Hypothesis f_gtb : forall x y, (f x >? f y) = (x >? y).

Lemma ewma_from_map (alpha : A) (xs : list A) :
  forall prev,
    ewma_from (f alpha) (f prev) (map f xs)
    = map f (ewma_from alpha prev xs).
Proof.
  induction xs as [|x xs IH]; intro prev; simpl; [reflexivity|].
  rewrite <- IH, f_add, !f_mul, f_sub, f_one. reflexivity.
Qed.

Lemma flagged_from_map (alpha z_value : A) (xs : list A) :
  forall k prev,
    flagged_from (f alpha) (f z_value) k (f prev) (map f xs)
    = map (fun a => (fst a, f (snd a)))
          (flagged_from alpha z_value k prev xs).
Proof.
  induction xs as [|x xs IH]; intros k prev; simpl; [reflexivity|].
  set (m := alpha * x + (one - alpha) * prev).
  assert (Hm : f alpha * f x + (one - f alpha) * f prev = f m)
    by (unfold m; rewrite f_add, !f_mul, f_sub, f_one; reflexivity).
  rewrite Hm, IH, map_app, <- f_sub, <- f_abs, f_gtb.
  destruct (np_abs (x - m) >? z_value); reflexivity.
Qed.

Lemma anomaly_detection_map (data : list A) (alpha z_value : A) :
  anomaly_detection (map f data) (f alpha) (f z_value)
  = result_map (locals_map f) (anomaly_detection data alpha z_value).
Proof.
  destruct data as [|d0 rest]; [reflexivity|].
  simpl map. rewrite !anomaly_detection_cons.
  rewrite ewma_from_map, flagged_from_map. reflexivity.
Qed.

End Transfer.

Lemma StronglySorted_lt_NoDup (l : list nat) :
  StronglySorted lt l -> NoDup l.
Proof.
  induction 1 as [|a l Hs IH Hall]; constructor; [|assumption].
  intro Hin. rewrite Forall_forall in Hall.
  specialize (Hall a Hin). lia.
Qed.

(** ** The detector on real numbers *)

Local Open Scope R_scope.

Lemma Rgtb_true (x y : R) : Rgtb x y = true <-> x > y.
Proof.
  unfold Rgtb. destruct (Rgt_dec x y); split; intro; try assumption;
    try reflexivity; try discriminate; contradiction.
Qed.

Lemma Rgtb_false (x y : R) : Rgtb x y = false <-> x <= y.
Proof.
  unfold Rgtb. destruct (Rgt_dec x y); split; intro; try reflexivity;
    try discriminate; lra.
Qed.

(** A call on a non-empty input returns, and what it returns. *)
Lemma anomaly_detection_returns (data : list R) (alpha z_value : R) :
  data <> [] ->
  exists d0 rest,
    data = d0 :: rest /\
    anomaly_detection data alpha z_value
    = Ok (d0 :: ewma_from alpha d0 rest,
          flagged_from alpha z_value 1 d0 rest).
Proof.
  destruct data as [|d0 rest]; [congruence|]. intros _.
  exists d0, rest. split; [reflexivity | apply anomaly_detection_cons].
Qed.

Lemma nth_trend_step (d0 : R) (rest : list R) (alpha : R) (i : nat) :
  (1 <= i < length (d0 :: rest))%nat ->
  nth i (d0 :: ewma_from alpha d0 rest) 0
  = alpha * nth i (d0 :: rest) 0
    + (1 - alpha) * nth (i - 1) (d0 :: ewma_from alpha d0 rest) 0.
Proof.
  intros [Hlo Hhi]. destruct i as [|j]; [lia|]. simpl in Hhi.
  replace (S j - 1)%nat with j by lia.
  assert (Hx : nth_error rest j = Some (nth j rest 0))
    by (apply nth_error_nth'; lia).
  destruct (nth_error_ewma_from alpha rest d0 j Hx) as (p & Hp & Hm).
  change (nth (S j) (d0 :: ewma_from alpha d0 rest) 0)
    with (nth j (ewma_from alpha d0 rest) 0).
  change (nth (S j) (d0 :: rest) 0) with (nth j rest 0).
  rewrite (nth_error_nth _ _ 0 Hm), (nth_error_nth _ _ 0 Hp).
  reflexivity.
Qed.

Lemma In_anomalies (d0 : R) (rest : list R) (alpha z_value : R)
      (i : nat) (x : R) :
  In (i, x) (flagged_from alpha z_value 1 d0 rest) <->
  (1 <= i < length (d0 :: rest))%nat /\
  x = nth i (d0 :: rest) 0 /\
  Rabs (nth i (d0 :: rest) 0 - nth i (d0 :: ewma_from alpha d0 rest) 0)
  > z_value.
Proof.
  rewrite In_flagged_from. split.
  - intros (j & t & -> & Hx & Ht & Htest).
    assert (Hj : (j < length rest)%nat)
      by (apply nth_error_Some; congruence).
    change (1 + j)%nat with (S j). simpl length. simpl nth.
    rewrite (nth_error_nth _ _ 0 Hx), (nth_error_nth _ _ 0 Ht).
    repeat split; try lia. apply Rgtb_true. exact Htest.
  - intros ([Hlo Hhi] & -> & Htest).
    destruct i as [|j]; [lia|]. simpl in Hhi, Htest |- *.
    exists j, (nth j (ewma_from alpha d0 rest) 0).
    repeat split.
    + apply nth_error_nth'. lia.
    + apply nth_error_nth'. rewrite length_ewma_from. lia.
    + apply Rgtb_true. exact Htest.
Qed.

(** *** Trend *)

(** C1. For every non-empty signal and all real [alpha] and threshold, the
    call returns a trend as long as the signal, whose first value is the
    first sample and whose value at every index [i >= 1] is
    [alpha * signal[i] + (1 - alpha) * trend[i-1]]. *)
Theorem trend_recurrence (data : list R) (alpha z_value : R) :
  data <> [] ->
  exists trend anomalies,
    anomaly_detection data alpha z_value = Ok (trend, anomalies) /\
    length trend = length data /\
    nth 0 trend 0 = nth 0 data 0 /\
    forall i : nat,
      (1 <= i < length data)%nat ->
      nth i trend 0
      = alpha * nth i data 0 + (1 - alpha) * nth (i - 1) trend 0.
Proof.
  intro Hne.
  destruct (anomaly_detection_returns alpha z_value Hne)
    as (d0 & rest & -> & Hrun).
  eexists _, _. split; [exact Hrun|]. repeat split.
  - simpl. now rewrite length_ewma_from.
  - intros i Hi. apply nth_trend_step. exact Hi.
Qed.

Lemma trend_recurrence_witness :
  exists trend anomalies,
    anomaly_detection [2; 4; 8] (1 / 2) 1 = Ok (trend, anomalies) /\
    length trend = length [2; 4; 8] /\
    nth 0 trend 0 = nth 0 [2; 4; 8] 0 /\
    forall i : nat,
      (1 <= i < length [2; 4; 8]%R)%nat ->
      nth i trend 0
      = 1 / 2 * nth i [2; 4; 8] 0 + (1 - 1 / 2) * nth (i - 1) trend 0.
Proof. apply trend_recurrence. discriminate. Defined.

(** *** Anomalies *)

(** C2. For every non-empty signal, the pair [(i, x)] is among the returned
    anomalies exactly when [1 <= i < N], [x] is the sample [signal[i]] and
    [abs(signal[i] - trend[i]) > threshold], where [trend[i]] is the value
    of the same step, [alpha * signal[i] + (1 - alpha) * trend[i-1]]; the
    anomalies are listed by increasing index. *)
Theorem anomalies_characterised (data : list R) (alpha z_value : R) :
  data <> [] ->
  exists trend anomalies,
    anomaly_detection data alpha z_value = Ok (trend, anomalies) /\
    (forall (i : nat) (x : R),
        In (i, x) anomalies <->
        (1 <= i < length data)%nat /\
        x = nth i data 0 /\
        Rabs (nth i data 0 - nth i trend 0) > z_value) /\
    (forall i : nat,
        (1 <= i < length data)%nat ->
        nth i trend 0
        = alpha * nth i data 0 + (1 - alpha) * nth (i - 1) trend 0) /\
    StronglySorted lt (indices anomalies).
Proof.
  intro Hne.
  destruct (anomaly_detection_returns alpha z_value Hne)
    as (d0 & rest & -> & Hrun).
  eexists _, _. split; [exact Hrun|]. split; [|split].
  - intros i x. apply In_anomalies.
  - intros i Hi. apply nth_trend_step. exact Hi.
  - apply flagged_from_sorted.
Qed.

Lemma anomalies_characterised_witness :
  exists trend anomalies,
    anomaly_detection [0; 100] (1 / 2) 10 = Ok (trend, anomalies) /\
    (forall (i : nat) (x : R),
        In (i, x) anomalies <->
        (1 <= i < length [0; 100]%R)%nat /\
        x = nth i [0; 100] 0 /\
        Rabs (nth i [0; 100] 0 - nth i trend 0) > 10) /\
    (forall i : nat,
        (1 <= i < length [0; 100]%R)%nat ->
        nth i trend 0
        = 1 / 2 * nth i [0; 100] 0 + (1 - 1 / 2) * nth (i - 1) trend 0) /\
    StronglySorted lt (indices anomalies).
Proof. apply anomalies_characterised. discriminate. Defined.

(** C3. For every non-empty signal of length [N], every index among the
    returned anomalies satisfies [1 <= i < N], index 0 is not among them,
    and the indices are strictly increasing, without repetition. *)
Theorem anomaly_indices_valid (data : list R) (alpha z_value : R) :
  data <> [] ->
  exists trend anomalies,
    anomaly_detection data alpha z_value = Ok (trend, anomalies) /\
    Forall (fun i => (1 <= i < length data)%nat) (indices anomalies) /\
    ~ In 0%nat (indices anomalies) /\
    StronglySorted lt (indices anomalies) /\
    NoDup (indices anomalies).
Proof.
  intro Hne.
  destruct (anomaly_detection_returns alpha z_value Hne)
    as (d0 & rest & -> & Hrun).
  eexists _, _. split; [exact Hrun|].
  assert (Hbounds := flagged_from_bounds alpha z_value rest 1 d0).
  assert (Hsorted := flagged_from_sorted alpha z_value rest 1 d0).
  repeat split.
  - exact Hbounds.
  - intro H0. rewrite Forall_forall in Hbounds.
    specialize (Hbounds _ H0). lia.
  - exact Hsorted.
  - apply StronglySorted_lt_NoDup. exact Hsorted.
Qed.

Lemma anomaly_indices_valid_witness :
  exists trend anomalies,
    anomaly_detection [0; 100; 0] (1 / 2) 10 = Ok (trend, anomalies) /\
    Forall (fun i => (1 <= i < length [0; 100; 0]%R)%nat)
           (indices anomalies) /\
    ~ In 0%nat (indices anomalies) /\
    StronglySorted lt (indices anomalies) /\
    NoDup (indices anomalies).
Proof. apply anomaly_indices_valid. discriminate. Defined.

(** *** Degenerate smoothing factors *)

Lemma ewma_from_one (xs : list R) :
  forall prev, ewma_from 1 prev xs = xs.
Proof.
  induction xs as [|x xs IH]; intro prev; simpl; [reflexivity|].
  rewrite IH. f_equal. ring.
Qed.

Lemma flagged_from_one (z_value : R) (xs : list R) :
  0 <= z_value ->
  forall k prev, flagged_from 1 z_value k prev xs = [].
Proof.
  intro Hz. induction xs as [|x xs IH]; intros k prev; simpl;
    [reflexivity|].
  rewrite IH, app_nil_r.
  replace (x - (1 * x + (1 - 1) * prev)) with 0 by ring.
  rewrite Rabs_R0.
  assert (Htest : Rgtb 0 z_value = false) by (apply Rgtb_false; lra).
  now rewrite Htest.
Qed.

(** C4. With [alpha = 1], on every non-empty signal and for every
    non-negative threshold (zero included), the returned trend is the
    signal itself and no anomaly is returned. *)
Theorem alpha_one_no_anomalies (data : list R) (z_value : R) :
  data <> [] ->
  0 <= z_value ->
  anomaly_detection data 1 z_value = Ok (data, []).
Proof.
  intros Hne Hz.
  destruct (anomaly_detection_returns 1 z_value Hne)
    as (d0 & rest & -> & Hrun).
  rewrite Hrun, ewma_from_one, flagged_from_one by exact Hz.
  reflexivity.
Qed.

Lemma alpha_one_no_anomalies_witness :
  anomaly_detection [5; -5; 5; -5; 5] 1 0 = Ok ([5; -5; 5; -5; 5], []).
Proof. apply alpha_one_no_anomalies; [discriminate | lra]. Defined.

Lemma nth_ewma_from_zero (xs : list R) :
  forall (prev : R) (j : nat),
    (j < length xs)%nat -> nth j (ewma_from 0 prev xs) 0 = prev.
Proof.
  induction xs as [|x xs IH]; intros prev j Hj; simpl in Hj; [lia|].
  simpl. replace (0 * x + (1 - 0) * prev) with prev by ring.
  destruct j as [|j]; [reflexivity | apply IH; lia].
Qed.

(** C8. With [alpha = 0], on every non-empty signal, every value of the
    returned trend is the first sample, and the pair [(i, x)] is among the
    returned anomalies exactly when [1 <= i < N], [x] is [signal[i]] and
    [abs(signal[i] - signal[0]) > threshold]. *)
Theorem alpha_zero_frozen_trend (data : list R) (z_value : R) :
  data <> [] ->
  exists trend anomalies,
    anomaly_detection data 0 z_value = Ok (trend, anomalies) /\
    length trend = length data /\
    (forall i : nat,
        (i < length data)%nat -> nth i trend 0 = nth 0 data 0) /\
    (forall (i : nat) (x : R),
        In (i, x) anomalies <->
        (1 <= i < length data)%nat /\
        x = nth i data 0 /\
        Rabs (nth i data 0 - nth 0 data 0) > z_value).
Proof.
  intro Hne.
  destruct (anomaly_detection_returns 0 z_value Hne)
    as (d0 & rest & -> & Hrun).
  eexists _, _. split; [exact Hrun|].
  assert (Hfrozen : forall i : nat,
             (i < length (d0 :: rest))%nat ->
             nth i (d0 :: ewma_from 0 d0 rest) 0 = d0).
  { intros [|j] Hj; [reflexivity|]. simpl in Hj |- *.
    apply nth_ewma_from_zero. lia. }
  split; [|split; [exact Hfrozen|]].
  - simpl. now rewrite length_ewma_from.
  - intros i x. rewrite In_anomalies.
    split; intros (Hi & Hx & Htest); repeat split; try tauto.
    + rewrite Hfrozen in Htest by lia. exact Htest.
    + rewrite Hfrozen by lia. exact Htest.
Qed.

Lemma alpha_zero_frozen_trend_witness :
  exists trend anomalies,
    anomaly_detection [5; -5; 5] 0 3 = Ok (trend, anomalies) /\
    length trend = length [5; -5; 5] /\
    (forall i : nat,
        (i < length [5; -5; 5]%R)%nat -> nth i trend 0 = nth 0 [5; -5; 5] 0) /\
    (forall (i : nat) (x : R),
        In (i, x) anomalies <->
        (1 <= i < length [5; -5; 5]%R)%nat /\
        x = nth i [5; -5; 5] 0 /\
        Rabs (nth i [5; -5; 5] 0 - nth 0 [5; -5; 5] 0) > 3).
Proof. apply alpha_zero_frozen_trend. discriminate. Defined.

(** *** Sensitivity *)

(** C5. For a fixed non-empty signal and a fixed [alpha], raising the
    threshold from [z1] to [z2 >= z1] leaves the trend unchanged, every
    anomaly returned with [z2] is returned with [z1], and no more anomalies
    are returned with [z2] than with [z1]. *)
Theorem threshold_monotone (data : list R) (alpha z1 z2 : R) :
  data <> [] ->
  z1 <= z2 ->
  exists trend anomalies1 anomalies2,
    anomaly_detection data alpha z1 = Ok (trend, anomalies1) /\
    anomaly_detection data alpha z2 = Ok (trend, anomalies2) /\
    incl anomalies2 anomalies1 /\
    (length anomalies2 <= length anomalies1)%nat.
Proof.
  intros Hne Hz.
  destruct (anomaly_detection_returns alpha z1 Hne)
    as (d0 & rest & -> & Hrun1).
  assert (Hrun2 := anomaly_detection_cons alpha z2 d0 rest).
  eexists _, _, _. split; [exact Hrun1|]. split; [exact Hrun2|].
  assert (Hincl : incl (flagged_from alpha z2 1 d0 rest)
                       (flagged_from alpha z1 1 d0 rest)).
  { intros [i x] Hin. apply In_anomalies in Hin. apply In_anomalies.
    destruct Hin as (Hi & Hx & Htest). repeat split; try tauto. lra. }
  split; [exact Hincl|].
  apply NoDup_incl_length; [|exact Hincl].
  apply (NoDup_map_inv fst), StronglySorted_lt_NoDup.
  apply flagged_from_sorted.
Qed.

Lemma threshold_monotone_witness :
  exists trend anomalies1 anomalies2,
    anomaly_detection [0; 100; 0] (1 / 2) 10 = Ok (trend, anomalies1) /\
    anomaly_detection [0; 100; 0] (1 / 2) 40 = Ok (trend, anomalies2) /\
    incl anomalies2 anomalies1 /\
    (length anomalies2 <= length anomalies1)%nat.
Proof. apply threshold_monotone; [discriminate | lra]. Defined.

(** *** A worked signal *)

Lemma Rgtb_abs_zero (d z_value : R) :
  d = 0 -> 0 <= z_value -> Rgtb (Rabs d) z_value = false.
Proof. intros -> Hz. rewrite Rabs_R0. apply Rgtb_false. exact Hz. Qed.

Lemma Rgtb_abs_above (d z_value : R) :
  d > z_value -> Rgtb (Rabs d) z_value = true.
Proof.
  intro Hd. apply Rgtb_true. pose proof (Rle_abs d). lra.
Qed.

(** C9. On the signal [0, 0, 0, 0, 100] with [alpha = 0.5] and threshold
    10 the call returns the trend [0, 0, 0, 0, 50] and the single anomaly
    [(4, 100)]. *)
Theorem scenario_spike :
  anomaly_detection [0; 0; 0; 0; 100] (1 / 2) 10
  = Ok ([0; 0; 0; 0; 50], [(4%nat, 100)]).
Proof.
  rewrite anomaly_detection_cons. simpl.
  rewrite !Rgtb_abs_zero by lra.
  rewrite Rgtb_abs_above by lra.
  simpl. repeat f_equal; lra.
Qed.

(** *** Failure *)

(** C6, as amended.  The call fails exactly when the signal is empty, and
    what it raises is the [IndexError] of reading [data[0]]: this is the
    first transition of the call, before any iteration of the loop, and
    there is no check of the input and no other kind of error.  On every
    non-empty signal the call runs to a returned pair, for every [alpha]
    and every threshold of every kind of number, their sign and size being
    unconstrained. *)
Theorem fails_iff_empty
        {A : Type} `{Scalar A} (data : list A) (alpha z_value : A) :
  (forall e : exception,
      anomaly_detection data alpha z_value = Raise e <->
      data = [] /\ e = IndexError) /\
  (data = [] ->
   step data alpha z_value Start (Done (Raise IndexError))) /\
  (data <> [] ->
   exists trend anomalies,
     anomaly_detection data alpha z_value = Ok (trend, anomalies) /\
     runs_to data alpha z_value (Ok (trend, anomalies))).
Proof.
  split; [|split].
  - intro e. destruct data as [|d0 rest].
    + rewrite anomaly_detection_nil. split.
      * intro He. injection He as <-. split; reflexivity.
      * intros [_ ->]. reflexivity.
    + rewrite anomaly_detection_cons.
      split; [discriminate | intros [Hnil _]; discriminate].
  - intros ->. apply step_seed_raise. reflexivity.
  - intro Hne. destruct data as [|d0 rest]; [congruence|].
    eexists _, _. split; [apply anomaly_detection_cons|].
    rewrite <- anomaly_detection_cons. apply runs_to_anomaly_detection.
Qed.

Lemma fails_iff_empty_witness :
  anomaly_detection [] (b64_of_Z 2) (b64_of_Z 10) = Raise IndexError /\
  step [] (b64_of_Z 2) (b64_of_Z 10) Start (Done (Raise IndexError)) /\
  exists trend anomalies,
    anomaly_detection [b64_of_Z 3; b64_of_Z 1] (b64_of_Z (-2)) S754_nan
    = Ok (trend, anomalies) /\
    runs_to [b64_of_Z 3; b64_of_Z 1] (b64_of_Z (-2)) S754_nan
            (Ok (trend, anomalies)).
Proof.
  destruct (fails_iff_empty [] (b64_of_Z 2) (b64_of_Z 10))
    as (Hfail & Hfirst & _).
  destruct (fails_iff_empty [b64_of_Z 3; b64_of_Z 1] (b64_of_Z (-2))
                            S754_nan)
    as (_ & _ & Hruns).
  split; [|split].
  - apply Hfail. split; reflexivity.
  - apply Hfirst. reflexivity.
  - apply Hruns. discriminate.
Defined.

(** On the empty signal the call raises [IndexError]; it does not raise
    [InvalidInput]. *)
Lemma fails_with_InvalidInput_counterexample :
  anomaly_detection [] (b64_of_Z 2) (b64_of_Z 10) = Raise IndexError /\
  anomaly_detection [] (b64_of_Z 2) (b64_of_Z 10) <> Raise InvalidInput.
Proof. split; [reflexivity | discriminate]. Qed.

(** *** Negative thresholds *)

Section AllFlagged.

Context {A : Type} `{Scalar A}.
Local Open Scope scalar_scope.

Variables alpha z_value : A.

(** When every sample of [xs] passes the test against its own smoothed
    value, every one of them is flagged. *)
Lemma length_flagged_from_all (xs : list A) :
  forall (k : nat) (prev : A),
    (forall (j : nat) (x t : A),
        nth_error xs j = Some x ->
        nth_error (ewma_from alpha prev xs) j = Some t ->
        (np_abs (x - t) >? z_value) = true) ->
    length (flagged_from alpha z_value k prev xs) = length xs.
Proof.
  induction xs as [|x xs IH]; intros k prev Hall; [reflexivity|].
  cbn [flagged_from ewma_from] in *.
  set (m := alpha * x + (one - alpha) * prev) in *.
  rewrite (Hall 0%nat x m eq_refl eq_refl). cbn [app length].
  f_equal. apply IH. intros j y t Hy Ht.
  exact (Hall (S j) y t Hy Ht).
Qed.

End AllFlagged.

(** Against a negative threshold the absolute value of every number passes,
    and NaN does not. *)
Lemma b64_abs_gtb_negative (z_value d : spec_float) :
  SFltb z_value (b64_of_Z 0) = true ->
  b64_gtb (SFabs d) z_value = negb (is_nan d).
Proof.
  unfold b64_gtb.
  destruct z_value as [s | [|] | | [|] mz ez]; try discriminate;
    destruct d; reflexivity.
Qed.

(** C10, as amended.  For every strictly negative threshold, every [alpha]
    and every non-empty signal of length [N], of binary64 numbers, the
    anomalies returned are the samples at the indices [1 <= i <= N-1] whose
    deviation [signal[i] - trend[i]] is not NaN.  When no deviation is NaN
    exactly [N-1] anomalies are returned, and they are then not empty for
    [N >= 2]. *)
Theorem negative_threshold_flags_non_nan
        (data : list spec_float) (alpha z_value : spec_float) :
  data <> [] ->
  SFltb z_value (b64_of_Z 0) = true ->
  exists trend anomalies,
    anomaly_detection data alpha z_value = Ok (trend, anomalies) /\
    (forall (i : nat) (x : spec_float),
        In (i, x) anomalies <->
        (1 <= i <= length data - 1)%nat /\
        nth_error data i = Some x /\
        exists t,
          nth_error trend i = Some t /\ is_nan (b64_sub x t) = false) /\
    ((forall (i : nat) (x t : spec_float),
         (1 <= i)%nat ->
         nth_error data i = Some x ->
         nth_error trend i = Some t ->
         is_nan (b64_sub x t) = false) ->
     length anomalies = (length data - 1)%nat /\
     ((2 <= length data)%nat -> anomalies <> [])).
Proof.
  intros Hne Hz. destruct data as [|d0 rest]; [congruence|].
  eexists _, _. split; [apply anomaly_detection_cons|].
  assert (Htest : forall x t : spec_float,
             gtb (np_abs (sub x t)) z_value = negb (is_nan (b64_sub x t)))
    by (intros x t; apply b64_abs_gtb_negative; exact Hz).
  split.
  - intros i x. rewrite In_flagged_from. split.
    + intros (j & t & -> & Hx & Ht & Hpass).
      assert (Hj : (j < length rest)%nat)
        by (apply nth_error_Some; congruence).
      rewrite Htest in Hpass. apply negb_true_iff in Hpass.
      split; [simpl; lia|]. split; [exact Hx|].
      exists t. split; assumption.
    + intros (Hi & Hx & t & Ht & Hnan).
      destruct i as [|j]; [lia|]. exists j, t.
      repeat split; try assumption.
      rewrite Htest, Hnan. reflexivity.
  - intro Hall.
    assert (Hlen : length (flagged_from alpha z_value 1 d0 rest)
                   = length rest).
    { apply length_flagged_from_all. intros j x t Hx Ht.
      rewrite Htest, (Hall (S j) x t (le_n_S _ _ (Nat.le_0_l j)) Hx Ht).
      reflexivity. }
    split.
    + rewrite Hlen. simpl. lia.
    + intros HN Hnil. rewrite Hnil in Hlen. simpl in Hlen, HN. lia.
Qed.

Lemma negative_threshold_flags_non_nan_witness :
  exists trend anomalies,
    anomaly_detection [b64_of_Z 5; b64_of_Z 5; b64_of_Z 7]
                      (b64_of_Z 1) (b64_of_Z (-1))
    = Ok (trend, anomalies) /\
    (forall (i : nat) (x : spec_float),
        In (i, x) anomalies <->
        (1 <= i <= length [b64_of_Z 5; b64_of_Z 5; b64_of_Z 7] - 1)%nat /\
        nth_error [b64_of_Z 5; b64_of_Z 5; b64_of_Z 7] i = Some x /\
        exists t,
          nth_error trend i = Some t /\ is_nan (b64_sub x t) = false) /\
    ((forall (i : nat) (x t : spec_float),
         (1 <= i)%nat ->
         nth_error [b64_of_Z 5; b64_of_Z 5; b64_of_Z 7] i = Some x ->
         nth_error trend i = Some t ->
         is_nan (b64_sub x t) = false) ->
     length anomalies
     = (length [b64_of_Z 5; b64_of_Z 5; b64_of_Z 7] - 1)%nat /\
     ((2 <= length [b64_of_Z 5; b64_of_Z 5; b64_of_Z 7])%nat ->
      anomalies <> [])).
Proof.
  apply negative_threshold_flags_non_nan; [discriminate | reflexivity].
Defined.

(** On the finite signal [0, 2^1023, 2^1023] with [alpha = 2] and threshold
    [-1] the trend overflows to [inf] and then to NaN: index 2 is not
    returned, and one anomaly is, not [N - 1 = 2]. *)
Lemma negative_threshold_counterexample :
  SFltb (b64_of_Z (-1)) (b64_of_Z 0) = true /\
  anomaly_detection [b64_of_Z 0; b64_of_Z (2 ^ 1023); b64_of_Z (2 ^ 1023)]
                    (b64_of_Z 2) (b64_of_Z (-1))
  = Ok ([b64_of_Z 0; S754_infinity false; S754_nan],
        [(1%nat, b64_of_Z (2 ^ 1023))]) /\
  length [(1%nat, b64_of_Z (2 ^ 1023))] <> (3 - 1)%nat.
Proof.
  split; [reflexivity|]. split; [vm_compute; reflexivity | discriminate].
Qed.

(** ** Running the detector

    On rationals the function evaluates inside Rocq, and the run on the
    reals that the rationals denote is its image under [Q2R]. *)

Lemma Q2R_abs (q : Q) : Q2R (Qabs q) = Rabs (Q2R q).
Proof.
  apply Qabs_case; intro Hq; apply Qle_Rle in Hq;
    rewrite RMicromega.Q2R_0 in Hq.
  - symmetry. apply Rabs_right. lra.
  - rewrite Q2R_opp. symmetry. apply Rabs_left1. exact Hq.
Qed.

Lemma Rgtb_Q2R (x y : Q) : Rgtb (Q2R x) (Q2R y) = Qgtb x y.
Proof.
  unfold Qgtb. destruct (Qle_bool x y) eqn:Hle; simpl.
  - apply Rgtb_false, Qle_Rle, Qle_bool_iff. exact Hle.
  - apply Rgtb_true. apply Rlt_gt, Qlt_Rlt, Qnot_le_lt.
    intro Hxy. apply Qle_bool_iff in Hxy. congruence.
Qed.

Lemma anomaly_detection_Q2R (data : list Q) (alpha z_value : Q) :
  anomaly_detection (map Q2R data) (Q2R alpha) (Q2R z_value)
  = result_map (locals_map Q2R) (anomaly_detection data alpha z_value).
Proof.
  apply anomaly_detection_map.
  - exact Q2R_mult.
  - exact Q2R_plus.
  - exact Q2R_minus.
  - exact RMicromega.Q2R_1.
  - exact Q2R_abs.
  - exact Rgtb_Q2R.
Qed.

(** The three worked signals of the specification, evaluated; [Qred] puts
    each returned fraction in lowest terms. *)

Example run_spike :
  result_map (locals_map Qred)
             (anomaly_detection [0; 0; 0; 0; 100]%Q (1 # 2)%Q 10%Q)
  = Ok ([0; 0; 0; 0; 50]%Q, [(4%nat, 100%Q)]).
Proof. vm_compute. reflexivity. Qed.

Example run_constant :
  result_map (locals_map Qred)
             (anomaly_detection [10; 10; 10; 10; 10]%Q (3 # 10)%Q (1 # 100)%Q)
  = Ok ([10; 10; 10; 10; 10]%Q, []).
Proof. vm_compute. reflexivity. Qed.

Example run_alternating :
  result_map (locals_map Qred)
             (anomaly_detection [5; -5; 5; -5; 5]%Q 1%Q 0%Q)
  = Ok ([5; -5; 5; -5; 5]%Q, []).
Proof. vm_compute. reflexivity. Qed.

(** The test is against the trend value of the same step: at threshold 60
    the spike of 100 after a 0 is not returned, its distance to the new
    trend value 50 being 50, although its distance to the previous trend
    value 0 is 100. *)
Example run_same_step :
  result_map (locals_map Qred)
             (anomaly_detection [0; 100]%Q (1 # 2)%Q 60%Q)
  = Ok ([0; 50]%Q, []).
Proof. vm_compute. reflexivity. Qed.

(** The empty signal. *)
Example run_empty :
  anomaly_detection (@nil Q) (1 # 2)%Q 10%Q = Raise IndexError.
Proof. reflexivity. Qed.

(** ** Rendering: facts *)

Lemma firstn_S_snoc {T : Type} (l : list T) :
  forall (k : nat) (y : T),
    nth_error l k = Some y -> firstn (S k) l = firstn k l ++ [y].
Proof.
  induction l as [|a l IH]; intros [|k] y Hy; try discriminate.
  - injection Hy as ->. reflexivity.
  - simpl in Hy. rewrite firstn_cons, (IH k y Hy). reflexivity.
Qed.

Lemma filter_nil_weaken {T : Type} (P Q : T -> bool) (l : list T) :
  (forall x, Q x = true -> P x = true) ->
  filter P l = [] -> filter Q l = [].
Proof.
  intros HQP. induction l as [|a l IH]; simpl; [reflexivity|].
  destruct (P a) eqn:HP; [discriminate|]. intro Hnil.
  destruct (Q a) eqn:HQ; [|apply IH; exact Hnil].
  apply HQP in HQ. congruence.
Qed.

Section RenderingFacts.

Context {A : Type}.

Variable data : list A.
Variable moving_average : list A.
Variable anomalies : list (nat * A).

Local Abbreviation update := (update data moving_average anomalies).
Local Abbreviation play := (play data moving_average anomalies).
Local Abbreviation frame_view := (frame_view data moving_average anomalies).

Lemma frame_view_0 : frame_view 0 = init data initial_view.
Proof.
  unfold frame_view, init, initial_view. simpl. f_equal.
  induction anomalies as [|p l IH]; simpl; [reflexivity | exact IH].
Qed.

(** Frame [k], shown after the frames before it, leaves the state of
    [k + 1] frames. *)
Lemma update_frame_view (k : nat) :
  (k < length data)%nat ->
  update k (frame_view k) = (frame_view (S k), Ok tt).
Proof.
  intro Hk. unfold update, getitem.
  destruct (nth_error data k) as [y|] eqn:Hy;
    [|apply nth_error_None in Hy; lia].
  unfold frame_view.
  cbn [xdata ydata data_line moving_average_line anomaly_scatter xlim ylim].
  rewrite <- seq_S, <- (firstn_S_snoc _ _ Hy).
  f_equal. f_equal.
  - rewrite length_seq, length_firstn, Nat.min_l by lia.
    rewrite Nat.eqb_refl. reflexivity.
  - rewrite length_seq, Nat.add_1_r, length_firstn.
    destruct (Nat.le_gt_cases (S k) (length moving_average)) as [Hl|Hl].
    + rewrite Nat.min_l by lia. rewrite Nat.eqb_refl. reflexivity.
    + rewrite (Nat.min_r (S k)) by lia.
      replace (S k =? length moving_average)%nat with false
        by (symmetry; apply Nat.eqb_neq; lia).
      rewrite Nat.min_r by lia.
      rewrite !firstn_all2 by lia. reflexivity.
  - assert (Hext : filter (fun p => (fst p <? S k)%nat) anomalies
                   = filter (fun p => (fst p <=? k)%nat) anomalies).
    { apply filter_ext. intro p.
      destruct (fst p <=? k)%nat eqn:Hle.
      - apply Nat.ltb_lt. apply Nat.leb_le in Hle. lia.
      - apply Nat.ltb_ge. apply Nat.leb_gt in Hle. lia. }
    rewrite Hext.
    destruct (filter (fun p => (fst p <=? k)%nat) anomalies)
      as [|p points] eqn:Hpoints.
    + revert Hpoints. apply filter_nil_weaken.
      intros q Hq. apply Nat.leb_le. apply Nat.ltb_lt in Hq. lia.
    + unfold zip_star, np_c_.
      destruct (List.split (p :: points)) as [x_anom y_anom] eqn:Hsplit.
      apply split_combine. exact Hsplit.
Qed.

Lemma play_app (frames1 frames2 : list nat) :
  forall st : view,
    play (frames1 ++ frames2) st
    = match play frames1 st with
      | (st', Ok _) => play frames2 st'
      | (st', Raise e) => (st', Raise e)
      end.
Proof.
  induction frames1 as [|frame frames1 IH]; intro st; simpl;
    [reflexivity|].
  destruct (update frame st) as [st' [u|e]]; [apply IH | reflexivity].
Qed.

(** The first [k] frames of a pass. *)
Lemma play_frames (k : nat) :
  (k <= length data)%nat ->
  play (seq 0 k) (init data initial_view) = (frame_view k, Ok tt).
Proof.
  induction k as [|k IH]; intro Hk.
  - simpl. now rewrite frame_view_0.
  - rewrite seq_S, play_app, IH by lia. simpl.
    rewrite update_frame_view by lia. reflexivity.
Qed.

End RenderingFacts.

(** X1. [update(frame)] raises [IndexError] exactly when [frame] is not an
    index of [data].  It has then already appended [frame] to [xdata] and
    changed nothing else, so that [xdata] is left one longer than it was
    while [ydata] and the three artists are as before. *)
Theorem update_raises_iff
        {A : Type} (data moving_average : list A)
        (anomalies : list (nat * A)) (frame : nat) (st : view) :
  (snd (update data moving_average anomalies frame st) = Raise IndexError
   <-> (length data <= frame)%nat) /\
  (snd (update data moving_average anomalies frame st) = Ok tt
   <-> (frame < length data)%nat) /\
  ((length data <= frame)%nat ->
   fst (update data moving_average anomalies frame st)
   = {| xdata := xdata st ++ [frame];
        ydata := ydata st;
        data_line := data_line st;
        moving_average_line := moving_average_line st;
        anomaly_scatter := anomaly_scatter st;
        xlim := xlim st;
        ylim := ylim st |}).
Proof.
  unfold update, getitem.
  destruct (nth_error data frame) as [y|] eqn:Hy.
  - assert (Hlt : (frame < length data)%nat)
      by (apply nth_error_Some; congruence).
    simpl. repeat split; intros; try lia; try discriminate; auto.
  - apply nth_error_None in Hy.
    simpl. repeat split; intros; try lia; try discriminate; auto.
Qed.

Lemma update_raises_iff_witness :
  fst (update [10; 20]%Q [10; 15]%Q [] 2 (frame_view [10; 20]%Q [10; 15]%Q [] 2))
  = {| xdata := [0; 1; 2]%nat;
       ydata := [10; 20]%Q;
       data_line := ([0; 1]%nat, [10; 20]%Q);
       moving_average_line := ([0; 1]%nat, [10; 15]%Q);
       anomaly_scatter := [];
       xlim := Some (0%nat, 2%nat);
       ylim := Some ((-120)%Z, 120%Z) |}.
Proof.
  apply (update_raises_iff [10; 20]%Q [10; 15]%Q [] 2
           (frame_view [10; 20]%Q [10; 15]%Q [] 2)).
  simpl. lia.
Defined.

(** X2. When [update] is called on the frames [0, 1, ..., k] in turn, [k]
    an index of [data], no call raises, and afterwards [xdata] is
    [0 .. k], [ydata] is [data[:k+1]], the data line was last given these
    two lists, and the moving average line was last given
    [moving_average[:k+1]] against [0 .. k] if [moving_average] has that
    many values, else the whole of [moving_average] against its own
    indices. *)
Theorem lines_after_frame
        {A : Type} (data moving_average : list A)
        (anomalies : list (nat * A)) (k : nat) :
  (k < length data)%nat ->
  exists st,
    play data moving_average anomalies (seq 0 (S k)) (init data initial_view)
    = (st, Ok tt) /\
    xdata st = seq 0 (S k) /\
    ydata st = firstn (S k) data /\
    data_line st = (seq 0 (S k), firstn (S k) data) /\
    moving_average_line st
    = (seq 0 (Nat.min (S k) (length moving_average)),
       firstn (S k) moving_average).
Proof.
  intro Hk. eexists. split; [apply play_frames; lia|].
  repeat split.
Qed.

Lemma lines_after_frame_witness :
  exists st,
    play [10; 20; 30]%Q [10; 15]%Q [] (seq 0 3)
         (init [10; 20; 30]%Q initial_view)
    = (st, Ok tt) /\
    xdata st = seq 0 3 /\
    ydata st = firstn 3 [10; 20; 30]%Q /\
    data_line st = (seq 0 3, firstn 3 [10; 20; 30]%Q) /\
    moving_average_line st
    = (seq 0 (Nat.min 3 (length [10; 15]%Q)), firstn 3 [10; 15]%Q).
Proof.
  apply (@lines_after_frame Q [10; 20; 30]%Q [10; 15]%Q [] 2).
  simpl. lia.
Defined.

(** X3. After the frames [0, 1, ..., k] the scatter artist holds exactly
    the anomalies whose index is at most [k], in the order of [anomalies];
    this is so although [update] leaves the scatter as it is on a frame
    where no anomaly is yet to be shown. *)
Theorem scatter_after_frame
        {A : Type} (data moving_average : list A)
        (anomalies : list (nat * A)) (k : nat) :
  (k < length data)%nat ->
  exists st,
    play data moving_average anomalies (seq 0 (S k)) (init data initial_view)
    = (st, Ok tt) /\
    anomaly_scatter st = filter (fun p => (fst p <=? k)%nat) anomalies.
Proof.
  intro Hk. eexists. split; [apply play_frames; lia|].
  simpl. apply filter_ext. intro p.
  destruct (fst p <=? k)%nat eqn:Hle.
  - apply Nat.ltb_lt. apply Nat.leb_le in Hle. lia.
  - apply Nat.ltb_ge. apply Nat.leb_gt in Hle. lia.
Qed.

Lemma scatter_after_frame_witness :
  exists st,
    play [0; 100; 0; 90]%Q [0; 50; 25; 57]%Q [(1%nat, 100%Q); (3%nat, 90%Q)]
         (seq 0 3) (init [0; 100; 0; 90]%Q initial_view)
    = (st, Ok tt) /\
    anomaly_scatter st
    = filter (fun p => (fst p <=? 2)%nat) [(1%nat, 100%Q); (3%nat, 90%Q)].
Proof.
  apply (@scatter_after_frame Q [0; 100; 0; 90]%Q [0; 50; 25; 57]%Q
           [(1%nat, 100%Q); (3%nat, 90%Q)] 2).
  simpl. lia.
Defined.

(** X4. Once [xdata] holds more entries than the number of the frame, as on
    every call that follows a completed pass, [update] no longer sets the
    moving average line; if [xdata] and [ydata] are equally long it still
    gives both, grown by one, to the data line. *)
Theorem update_after_pass
        {A : Type} (data moving_average : list A)
        (anomalies : list (nat * A)) (frame : nat) (st : view) (y : A) :
  nth_error data frame = Some y ->
  (frame < length (xdata st))%nat ->
  length (xdata st) = length (ydata st) ->
  let st' := fst (update data moving_average anomalies frame st) in
  moving_average_line st' = moving_average_line st /\
  data_line st' = (xdata st ++ [frame], ydata st ++ [y]).
Proof.
  intros Hy Hstale Hlen. unfold update, getitem. rewrite Hy. simpl. split.
  - rewrite length_app, length_firstn. simpl.
    replace (length (xdata st) + 1 =?
             Nat.min (frame + 1) (length moving_average))%nat
      with false by (symmetry; apply Nat.eqb_neq; lia).
    reflexivity.
  - rewrite !length_app, Hlen. simpl. rewrite Nat.eqb_refl. reflexivity.
Qed.

Lemma update_after_pass_witness :
  let st' :=
    fst (update [10; 20]%Q [10; 15]%Q [] 0
                (frame_view [10; 20]%Q [10; 15]%Q [] 2)) in
  moving_average_line st'
  = moving_average_line (frame_view [10; 20]%Q [10; 15]%Q [] 2) /\
  data_line st'
  = (xdata (frame_view [10; 20]%Q [10; 15]%Q [] 2) ++ [0%nat],
     ydata (frame_view [10; 20]%Q [10; 15]%Q [] 2) ++ [10%Q]).
Proof.
  apply (@update_after_pass Q [10; 20]%Q [10; 15]%Q [] 0
           (frame_view [10; 20]%Q [10; 15]%Q [] 2) 10%Q).
  - reflexivity.
  - simpl. lia.
  - reflexivity.
Defined.

(** ** Detection, then rendering *)

Lemma filter_all {T : Type} (P : T -> bool) (l : list T) :
  Forall (fun x => P x = true) l -> filter P l = l.
Proof.
  induction 1 as [|a l Ha Hl IH]; simpl; [reflexivity|].
  now rewrite Ha, IH.
Qed.

(** One pass of the animation over what the detector returned. *)
Lemma realtime_visualization_detected
      {A : Type} `{Scalar A} (alpha z_value d0 : A) (rest : list A) :
  realtime_visualization
    (d0 :: rest) (d0 :: ewma_from alpha d0 rest)
    (flagged_from alpha z_value 1 d0 rest)
  = ({| xdata := seq 0 (length (d0 :: rest));
        ydata := d0 :: rest;
        data_line := (seq 0 (length (d0 :: rest)), d0 :: rest);
        moving_average_line :=
          (seq 0 (length (d0 :: rest)), d0 :: ewma_from alpha d0 rest);
        anomaly_scatter := flagged_from alpha z_value 1 d0 rest;
        xlim := Some (0%nat, length (d0 :: rest));
        ylim := Some ((-120)%Z, 120%Z) |}, Ok tt).
Proof.
  unfold realtime_visualization, range. rewrite Nat.sub_0_r.
  rewrite play_frames by lia. unfold frame_view.
  set (N := length (d0 :: rest)).
  assert (Htrend : length (d0 :: ewma_from alpha d0 rest) = N)
    by (simpl; now rewrite length_ewma_from).
  rewrite Htrend, Nat.min_id, !firstn_all2 by lia.
  rewrite filter_all; [reflexivity|].
  pose proof (flagged_from_bounds alpha z_value rest 1 d0) as Hb.
  unfold indices in Hb. rewrite Forall_map in Hb.
  eapply Forall_impl; [|exact Hb]. simpl. intros p Hp.
  apply Nat.ltb_lt. unfold N. simpl. lia.
Qed.

(** X5. On a non-empty signal, a pass of the animation over the detector's
    output raises nothing and ends with the data line given the whole
    signal, the moving average line given the whole trend, both against
    the indices [0 .. N-1], and the scatter given all the anomalies, every
    one of them at an abscissa within the limits [0, N] set by [init]. *)
Theorem animation_shows_detection
        {A : Type} `{Scalar A} (data : list A) (alpha z_value : A) :
  data <> [] ->
  exists trend anomalies st,
    anomaly_detection data alpha z_value = Ok (trend, anomalies) /\
    realtime_visualization data trend anomalies = (st, Ok tt) /\
    data_line st = (seq 0 (length data), data) /\
    moving_average_line st = (seq 0 (length data), trend) /\
    anomaly_scatter st = anomalies /\
    xlim st = Some (0%nat, length data) /\
    Forall (fun p => (0 <= fst p <= length data)%nat) (anomaly_scatter st).
Proof.
  destruct data as [|d0 rest]; [congruence|]. intros _.
  eexists _, _, _. split; [apply anomaly_detection_cons|].
  split; [apply realtime_visualization_detected|].
  cbn [data_line moving_average_line anomaly_scatter xlim].
  repeat split.
  pose proof (flagged_from_bounds alpha z_value rest 1 d0) as Hb.
  unfold indices in Hb. rewrite Forall_map in Hb.
  eapply Forall_impl; [|exact Hb]. simpl. intros p Hp. lia.
Qed.

Lemma animation_shows_detection_witness :
  exists trend anomalies st,
    anomaly_detection [0; 100; 0]%Q (1 # 2)%Q 10%Q = Ok (trend, anomalies) /\
    realtime_visualization [0; 100; 0]%Q trend anomalies = (st, Ok tt) /\
    data_line st = (seq 0 (length [0; 100; 0]%Q), [0; 100; 0]%Q) /\
    moving_average_line st = (seq 0 (length [0; 100; 0]%Q), trend) /\
    anomaly_scatter st = anomalies /\
    xlim st = Some (0%nat, length [0; 100; 0]%Q) /\
    Forall (fun p => (0 <= fst p <= length [0; 100; 0]%Q)%nat)
           (anomaly_scatter st).
Proof. apply animation_shows_detection. discriminate. Defined.

Lemma zip_star_maps {A : Type} (points : list (nat * A)) :
  zip_star points = (map fst points, map snd points).
Proof.
  unfold zip_star.
  induction points as [|[i x] points IH]; simpl; [reflexivity|].
  now rewrite IH.
Qed.

Lemma np_c_maps {A : Type} (points : list (nat * A)) :
  np_c_ (map fst points) (map snd points) = points.
Proof.
  unfold np_c_.
  induction points as [|[i x] points IH]; simpl; [reflexivity|].
  now rewrite IH.
Qed.

(** X6. [plot] calls [ax.scatter] exactly when there is an anomaly, with
    the indices and the values of the anomalies in their order; on the
    detector's output it passes on what the last frame of the animation
    shows: the same two curves, the same anomaly points and the same
    limits. *)
Theorem plot_agrees_with_last_frame
        {A : Type} `{Scalar A} (data : list A) (alpha z_value : A) :
  data <> [] ->
  exists trend anomalies st,
    anomaly_detection data alpha z_value = Ok (trend, anomalies) /\
    realtime_visualization data trend anomalies = (st, Ok tt) /\
    let fig := plot data trend anomalies in
    plotted fig = [snd (data_line st); snd (moving_average_line st)] /\
    (scattered fig = None <-> anomalies = []) /\
    (forall x_anomalies y_anomalies,
        scattered fig = Some (x_anomalies, y_anomalies) ->
        x_anomalies = indices anomalies /\
        y_anomalies = map snd anomalies /\
        np_c_ x_anomalies y_anomalies = anomaly_scatter st) /\
    Some (fig_xlim fig) = xlim st /\
    Some (fig_ylim fig) = ylim st.
Proof.
  destruct data as [|d0 rest]; [congruence|]. intros _.
  eexists _, _, _. split; [apply anomaly_detection_cons|].
  split; [apply realtime_visualization_detected|].
  cbn [data_line moving_average_line anomaly_scatter xlim ylim snd].
  unfold plot. cbn [plotted scattered fig_xlim fig_ylim].
  split; [reflexivity|].
  destruct (flagged_from alpha z_value 1 d0 rest) as [|p points] eqn:Hf.
  - repeat split; try discriminate; auto.
  - rewrite zip_star_maps.
    split; [split; discriminate|]. split; [|split; reflexivity].
    intros x_anomalies y_anomalies Hsome. injection Hsome as <- <-.
    repeat split. apply (np_c_maps (p :: points)).
Qed.

Lemma plot_agrees_with_last_frame_witness :
  exists trend anomalies st,
    anomaly_detection [0; 100; 0]%Q (1 # 2)%Q 10%Q = Ok (trend, anomalies) /\
    realtime_visualization [0; 100; 0]%Q trend anomalies = (st, Ok tt) /\
    let fig := plot [0; 100; 0]%Q trend anomalies in
    plotted fig = [snd (data_line st); snd (moving_average_line st)] /\
    (scattered fig = None <-> anomalies = []) /\
    (forall x_anomalies y_anomalies,
        scattered fig = Some (x_anomalies, y_anomalies) ->
        x_anomalies = indices anomalies /\
        y_anomalies = map snd anomalies /\
        np_c_ x_anomalies y_anomalies = anomaly_scatter st) /\
    Some (fig_xlim fig) = xlim st /\
    Some (fig_ylim fig) = ylim st.
Proof. apply plot_agrees_with_last_frame. discriminate. Defined.

(** ** More on the detector *)

Section Streaming.

Context {A : Type} `{Scalar A}.

Variables alpha z_value : A.

(** The loop over [xs ++ ys] does on [xs] what it does when [ys] is not
    there, and goes on over [ys] from the last trend value. *)
Lemma recurrence_app (xs ys : list A) :
  forall (k : nat) (prev : A),
  exists prev',
    ewma_from alpha prev (xs ++ ys)
    = ewma_from alpha prev xs ++ ewma_from alpha prev' ys /\
    flagged_from alpha z_value k prev (xs ++ ys)
    = flagged_from alpha z_value k prev xs
      ++ flagged_from alpha z_value (k + length xs) prev' ys.
Proof.
  induction xs as [|x xs IH]; intros k prev.
  - exists prev. rewrite Nat.add_0_r. split; reflexivity.
  - cbn [app ewma_from flagged_from length].
    destruct (IH (S k) (mul alpha x + sub one alpha * prev)%sc)
      as (prev' & Ht & Hf).
    exists prev'. rewrite Ht, Hf, <- app_assoc, Nat.add_succ_r.
    split; reflexivity.
Qed.

(** X7. Reading more samples never changes what was returned for the
    earlier ones: the trend and the anomalies of [data ++ more] are those of
    the non-empty [data], followed by one trend value for each sample of
    [more] and by anomalies whose indices are indices of [more]. *)
Theorem detection_extends (data more : list A) :
  data <> [] ->
  exists trend anomalies trend' anomalies',
    anomaly_detection data alpha z_value = Ok (trend, anomalies) /\
    anomaly_detection (data ++ more) alpha z_value
    = Ok (trend ++ trend', anomalies ++ anomalies') /\
    length trend' = length more /\
    Forall (fun i => (length data <= i < length data + length more)%nat)
           (indices anomalies').
Proof.
  destruct data as [|d0 rest]; [congruence|]. intros _.
  destruct (recurrence_app rest more 1 d0) as (prev' & Ht & Hf).
  exists (d0 :: ewma_from alpha d0 rest),
         (flagged_from alpha z_value 1 d0 rest),
         (ewma_from alpha prev' more),
         (flagged_from alpha z_value (1 + length rest) prev' more).
  split; [apply anomaly_detection_cons|]. split; [|split].
  - cbn [app]. rewrite anomaly_detection_cons, Ht, Hf. reflexivity.
  - apply length_ewma_from.
  - apply flagged_from_bounds.
Qed.

End Streaming.

Lemma detection_extends_witness :
  exists trend anomalies trend' anomalies',
    anomaly_detection [0; 100]%Q (1 # 2)%Q 10%Q = Ok (trend, anomalies) /\
    anomaly_detection ([0; 100] ++ [0; 90])%Q (1 # 2)%Q 10%Q
    = Ok (trend ++ trend', anomalies ++ anomalies') /\
    length trend' = length [0; 90]%Q /\
    Forall (fun i =>
              (length [0; 100]%Q <= i
               < length [0; 100]%Q + length [0; 90]%Q)%nat)
           (indices anomalies').
Proof. apply detection_extends. discriminate. Defined.

(** ** The signal source: facts *)

Lemma setitem_Ok {T : Type} (l : list T) (i : nat) (v d : T) :
  (i < length l)%nat ->
  exists l',
    setitem l i v = Ok l' /\
    length l' = length l /\
    nth i l' d = v /\
    forall j, j <> i -> nth j l' d = nth j l d.
Proof.
  intro Hi. unfold setitem.
  replace (i <? length l)%nat with true
    by (symmetry; apply Nat.ltb_lt; exact Hi).
  eexists. split; [reflexivity|].
  assert (Hfirst : length (firstn i l) = i)
    by (rewrite length_firstn; lia).
  split; [|split].
  - rewrite length_app, Hfirst. cbn [length]. rewrite length_skipn. lia.
  - rewrite app_nth2, Hfirst, Nat.sub_diag by lia. reflexivity.
  - intros j Hj. destruct (Nat.lt_ge_cases j i) as [Hlt|Hge].
    + rewrite app_nth1 by lia. rewrite nth_firstn.
      replace (j <? i)%nat with true
        by (symmetry; apply Nat.ltb_lt; exact Hlt).
      reflexivity.
    + rewrite app_nth2, Hfirst by lia.
      destruct (j - i)%nat as [|r] eqn:Hr; [lia|].
      cbn [nth]. rewrite nth_skipn. f_equal. lia.
Qed.

Section GeneratorFacts.

Variable G : Type.
Variable normal_sample : R -> R -> G -> R * G.
Variable random_random : G -> R * G.
Variable np_random_choice : list R -> G -> R * G.
Variable random_uniform : R -> R -> G -> R * G.

Local Abbreviation np_random_normal := (np_random_normal normal_sample).
Local Abbreviation spiked := (spiked np_random_choice random_uniform).
Local Abbreviation spike_body :=
  (spike_body random_random np_random_choice random_uniform).
Local Abbreviation spike_loop :=
  (spike_loop random_random np_random_choice random_uniform).
Local Abbreviation data_generator :=
  (data_generator normal_sample random_random np_random_choice
                  random_uniform).

Lemma length_np_random_normal (loc scale : R) (size : nat) :
  forall g, length (fst (np_random_normal loc scale size g)) = size.
Proof.
  induction size as [|size IH]; intro g; simpl; [reflexivity|].
  destruct (normal_sample loc scale g) as [x g1].
  specialize (IH g1).
  destruct (np_random_normal loc scale size g1) as [xs g2].
  simpl in *. now rewrite IH.
Qed.

(** One iteration at an index of the array. *)
Lemma spike_body_Ok (i : nat) (l : list R) (g : G) :
  (i < length l)%nat ->
  exists l' g',
    spike_body i (l, g) = Ok (l', g') /\
    length l' = length l /\
    (forall j, j <> i -> nth j l' 0 = nth j l 0) /\
    spiked (nth i l 0) (nth i l' 0).
Proof.
  intro Hi. unfold spike_body.
  destruct (random_random g) as [u g1].
  destruct (Rltb u (1 / 100)).
  - unfold getitem. rewrite (nth_error_nth' l 0 Hi). cbn [bind].
    destruct (np_random_choice [-1; 1] g1) as [sign g2] eqn:Hsign.
    destruct (random_uniform 50 100 g2) as [magnitude g3] eqn:Hmag.
    destruct (setitem_Ok l (nth i l 0 + sign * magnitude) 0 Hi)
      as (l' & Hset & Hlen & Hnew & Hold).
    rewrite Hset. cbn [bind]. exists l', g3.
    repeat split; try assumption.
    right. exists g1, g2. rewrite Hsign, Hmag. exact Hnew.
  - exists l, g1. repeat split. left. reflexivity.
Qed.

(** The iterations at the indices [k, ..., k + m - 1] of the array. *)
Lemma spike_loop_Ok (m : nat) :
  forall (k : nat) (l : list R) (g : G),
    (k + m <= length l)%nat ->
    exists l' g',
      spike_loop (seq k m) (l, g) = Ok (l', g') /\
      length l' = length l /\
      (forall j, (j < k \/ k + m <= j)%nat -> nth j l' 0 = nth j l 0) /\
      (forall j, (k <= j < k + m)%nat -> spiked (nth j l 0) (nth j l' 0)).
Proof.
  induction m as [|m IH]; intros k l g Hk.
  - exists l, g. repeat split. intros j Hj. lia.
  - cbn [seq spike_loop].
    destruct (@spike_body_Ok k l g) as (l1 & g1 & Hbody & Hlen1 & Hout1 & Hat1);
      [lia|].
    rewrite Hbody. cbn [bind].
    destruct (IH (S k) l1 g1) as (l' & g' & Hloop & Hlen & Hout & Hin);
      [lia|].
    exists l', g'. split; [exact Hloop|]. split; [congruence|]. split.
    + intros j Hj. rewrite Hout by lia. apply Hout1. lia.
    + intros j Hj. destruct (Nat.eq_dec j k) as [->|Hne].
      * rewrite Hout by lia. exact Hat1.
      * rewrite <- (Hout1 j Hne). apply Hin. lia.
Qed.

Lemma length_array_add (a b : list R) :
  length a = length b -> length (array_add a b) = length a.
Proof.
  intro Hab. unfold array_add.
  rewrite length_map, length_combine, <- Hab. apply Nat.min_id.
Qed.

Lemma nth_array_add (a b : list R) (i : nat) :
  length a = length b ->
  (i < length a)%nat ->
  nth i (array_add a b) 0 = nth i a 0 + nth i b 0.
Proof.
  intros Hab Hi. unfold array_add.
  set (f := fun p : R * R => fst p + snd p).
  rewrite (nth_indep _ 0 (f (0, 0)))
    by (rewrite length_map, length_combine; lia).
  rewrite map_nth, combine_nth by exact Hab. reflexivity.
Qed.

Lemma nth_sine_wave (n i : nat) :
  (i < n)%nat ->
  nth i (sine_wave (np_arange n)) 0 = 10 * sin (2 * PI * INR i / 100).
Proof.
  intro Hi. unfold sine_wave, np_arange.
  set (f := fun t : nat => 10 * sin (2 * PI * INR t / 100)).
  rewrite (nth_indep _ 0 (f 0%nat))
    by (rewrite length_map, length_seq; exact Hi).
  rewrite map_nth, seq_nth by exact Hi. reflexivity.
Qed.

(** What [data_generator] returns, in terms of the noise it drew. *)
Lemma data_generator_Ok (num_points : nat) (g : G) :
  exists data_stream g',
    data_generator num_points g = Ok (data_stream, g') /\
    length data_stream = num_points /\
    forall i,
      (i < num_points)%nat ->
      spiked (10 * sin (2 * PI * INR i / 100)
              + nth i (fst (np_random_normal 0 1 num_points g)) 0)
             (nth i data_stream 0).
Proof.
  unfold data_generator.
  pose proof (length_np_random_normal 0 1 num_points g) as Hnoise.
  destruct (np_random_normal 0 1 num_points g) as [random_noise g1].
  cbn [fst] in *.
  assert (Hsine : length (sine_wave (np_arange num_points)) = num_points)
    by (unfold sine_wave, np_arange; now rewrite length_map, length_seq).
  set (base := array_add (sine_wave (np_arange num_points)) random_noise).
  assert (Hbase : length base = num_points)
    by (unfold base; rewrite length_array_add; congruence).
  unfold range. rewrite Nat.sub_0_r.
  destruct (@spike_loop_Ok num_points 0 base g1)
    as (l' & g' & Hloop & Hlen & _ & Hin); [lia|].
  exists l', g'. split; [exact Hloop|]. split; [congruence|].
  intros i Hi. specialize (Hin i ltac:(lia)).
  unfold base in Hin.
  rewrite nth_array_add, nth_sine_wave in Hin by (congruence || lia).
  exact Hin.
Qed.

End GeneratorFacts.

(** X14. Whatever the random draws are, [data_generator(num_points)]
    raises nothing and returns exactly [num_points] samples (none for
    [num_points = 0]). *)
Theorem data_generator_length
        (G : Type)
        (normal_sample : R -> R -> G -> R * G)
        (random_random : G -> R * G)
        (np_random_choice : list R -> G -> R * G)
        (random_uniform : R -> R -> G -> R * G)
        (num_points : nat) (g : G) :
  exists data_stream g',
    data_generator normal_sample random_random np_random_choice
                   random_uniform num_points g
    = Ok (data_stream, g') /\
    length data_stream = num_points.
Proof.
  destruct (data_generator_Ok normal_sample random_random np_random_choice
              random_uniform num_points g)
    as (data_stream & g' & Hrun & Hlen & _).
  exists data_stream, g'. split; assumption.
Qed.



(** X16. Detection on a generated signal fails exactly when no point was
    asked for: [anomaly_detection(data_generator(n), alpha, z_value)]
    raises [IndexError] when [n = 0] and returns for every other [n],
    whatever the draws, [alpha] and [z_value] are. *)
Theorem generate_then_detect
        (G : Type)
        (normal_sample : R -> R -> G -> R * G)
        (random_random : G -> R * G)
        (np_random_choice : list R -> G -> R * G)
        (random_uniform : R -> R -> G -> R * G)
        (num_points : nat) (g : G) (alpha z_value : R) :
  let detected :=
    generated <- data_generator normal_sample random_random
                                np_random_choice random_uniform
                                num_points g ;;
    anomaly_detection (fst generated) alpha z_value in
  (detected = Raise IndexError <-> num_points = 0%nat) /\
  (num_points <> 0%nat ->
   exists trend anomalies,
     detected = Ok (trend, anomalies) /\ length trend = num_points).
Proof.
  intro detected. subst detected.
  destruct (data_generator_Ok normal_sample random_random np_random_choice
              random_uniform num_points g)
    as (data_stream & g' & Hrun & Hlen & _).
  rewrite Hrun. cbn [bind fst].
  destruct data_stream as [|d0 rest].
  - simpl in Hlen. subst num_points.
    split; [split; reflexivity | congruence].
  - rewrite anomaly_detection_cons. split.
    + split; [discriminate | simpl in Hlen; lia].
    + intros _. eexists _, _. split; [reflexivity|].
      simpl. rewrite length_ewma_from. exact Hlen.
Qed.

Lemma generate_then_detect_witness :
  exists trend anomalies,
    (generated <- data_generator (fun _ _ (g : unit) => (0, g))
                                 (fun g => (1, g))
                                 (fun values g => (hd 0 values, g))
                                 (fun a _ g => (a, g)) 3 tt ;;
     anomaly_detection (fst generated) (1 / 10) 8)
    = Ok (trend, anomalies) /\ length trend = 3%nat.
Proof.
  apply (generate_then_detect (fun _ _ (g : unit) => (0, g))
           (fun g => (1, g)) (fun values g => (hd 0 values, g))
           (fun a _ g => (a, g)) 3 tt (1 / 10) 8).
  discriminate.
Defined.

(** X17. Run as a script, the program raises nothing, whatever the random
    draws are: it generates 200 samples, and the animation ends with the
    data line given all of them, the moving average line given the 200
    values of their trend for [alpha = 0.1], and the scatter given exactly
    the anomalies detected with threshold 8. *)
Theorem main_runs
        (G : Type)
        (normal_sample : R -> R -> G -> R * G)
        (random_random : G -> R * G)
        (np_random_choice : list R -> G -> R * G)
        (random_uniform : R -> R -> G -> R * G)
        (g : G) :
  exists data trend anomalies st,
    main normal_sample random_random np_random_choice random_uniform g
    = Ok (data, st) /\
    length data = 200%nat /\
    anomaly_detection data (1 / 10) 8 = Ok (trend, anomalies) /\
    data_line st = (seq 0 200, data) /\
    moving_average_line st = (seq 0 200, trend) /\
    anomaly_scatter st = anomalies.
Proof.
  unfold main.
  destruct (data_generator_Ok normal_sample random_random np_random_choice
              random_uniform 200 g)
    as (data & g' & Hrun & Hlen & _).
  rewrite Hrun. cbn [bind fst].
  destruct data as [|d0 rest]; [discriminate Hlen|].
  rewrite anomaly_detection_cons. cbn [bind].
  rewrite realtime_visualization_detected.
  eexists _, _, _, _. split; [reflexivity|].
  split; [exact Hlen|]. split; [apply anomaly_detection_cons|].
  cbn [data_line moving_average_line anomaly_scatter].
  rewrite Hlen. repeat split.
Qed.
